(** * Portfolio dashboard: the join, metric and formatting pipeline

    A shallow embedding of [portfolio-dashboard-v11.py].  The script loads a
    holdings table and four reference documents, joins them on ISIN and
    member code, derives per-holding and portfolio metrics with pandas, and
    formats amounts for display.

    - Numbers are IEEE 754 binary64 values, as pandas [float64] columns and
      Python [float]s are; they are modelled by the standard library's
      [spec_float] at precision 53 and maximal exponent 1024, whose
      operations round to nearest, ties to even.  Division by zero, overflow
      and invalid operations yield infinities and NaN and never raise, as in
      numpy.  Integer-valued columns (which pandas reads as [int64]) behave
      identically below 2^53, where every integer is a binary64 value.
    - A missing cell (a JSON [null], a key absent from a lookup table) is
      NaN in a numeric column.
    - Python dicts are [gmap]s built by insertion, later entries overwriting
      earlier ones with the same key.
    - The data frame is a list of rows, one record per row. *)

From stdpp Require Import gmap strings list fin_maps.
From Stdlib Require Import ZArith QArith Qabs Qpower Lqa Ascii Floats.SpecFloat
  DecimalString.

Open Scope Z_scope.

(** ** Binary64 arithmetic *)

Module Binary64.

Definition float : Type := spec_float.

Definition prec : Z := 53.
Definition emax : Z := 1024.

Definition add : float -> float -> float := SFadd prec emax.
Definition sub : float -> float -> float := SFsub prec emax.
Definition mul : float -> float -> float := SFmul prec emax.
Definition div : float -> float -> float := SFdiv prec emax.

Definition nan : float := S754_nan.
Definition pinf : float := S754_infinity false.
Definition ninf : float := S754_infinity true.
Definition zero : float := S754_zero false.

(** The binary64 value nearest to an integer (Python's [float(n)]; exact
    below 2^53, infinite from 2^1024 on). *)
Definition of_Z (n : Z) : float := binary_normalize prec emax n 0 false.

(** The binary64 value nearest to the decimal [n / 10^k], which is what a
    decimal literal such as [1.2] denotes, for [n] below 2^53 and
    [k <= 22]. *)
Definition dec (n k : Z) : float := div (of_Z n) (of_Z (10 ^ k)).

Definition is_nan (x : float) : bool :=
  match x with S754_nan => true | _ => false end.

Definition is_zero (x : float) : bool :=
  match x with S754_zero _ => true | _ => false end.

(** Python truth value of a number: false exactly for the two zeros. *)
Definition truthy (x : float) : bool := negb (is_zero x).

(** [rint]: round to an integral value in the current rounding mode
    (to nearest, ties to even); the sign is kept, so [rint (-0.3)] is
    [-0.0]. *)
Definition rint (x : float) : float :=
  match x with
  | S754_finite s m e =>
      if 0 <=? e then x
      else
        let d := 2 ^ (- e) in
        let '(q, r) := Z.div_eucl (Zpos m) d in
        binary_normalize prec emax
          (cond_Zopp s (round_nearest_even q (new_location d r))) 0 s
  | _ => x
  end.

(** numpy's [round(decimals=2)] on a float array, which pandas'
    [Series.round(2)] calls: multiply by [10**2], [rint], divide by
    [10**2]. *)
Definition round2 (x : float) : float :=
  div (rint (mul x (of_Z 100))) (of_Z 100).

(** [Series.sum()] with the default [skipna=True]: NaN entries are
    replaced by 0 and the values added up, starting from 0.  The additions
    are sequential for fewer than eight values; for longer columns numpy
    associates them in blocks, which changes only the rounding. *)
Definition fillna0 (x : float) : float := if is_nan x then zero else x.

Definition nansum (l : list float) : float :=
  fold_left add (map fillna0 l) zero.


Definition is_finite (x : float) : bool :=
  match x with
  | S754_finite _ _ _ | S754_zero _ => true
  | _ => false
  end.


(** The integer denoted by an integral finite value. *)
Definition to_Z (x : float) : option Z :=
  match x with
  | S754_zero _ => Some 0
  | S754_finite s m e => Some (cond_Zopp s (Z.shiftl (Zpos m) e))
  | _ => None
  end.

End Binary64.

Import Binary64.

(** ** Input data *)

(** [language = st.sidebar.radio("Choose Language", ["English", "Tamil"])] *)
Inductive Language : Type := English | Tamil.

(** One row of the holdings CSV. *)
Record Holding : Type := {
  ISIN : string;
  Stock_Name : string;
  Member_code : string;
  Qty : float;
  Value_At_Cost : float;
  Value_At_Market_Price : float;
  Sector_name : option string
}.

(** One entry of [beta_data["financial_metrics"]]; [beta_1yr] is [None] when
    the key is absent or [null]: [item.get("beta_1yr")] is [None] in both
    cases. *)
Record Metric : Type := {
  metric_isin : string;
  beta_1yr : option float
}.

(** One entry of [bank_data["banks_data"]]; an optional key of the JSON
    object is [None] when absent, and names are strings. *)
Record Bank : Type := {
  bank_isin : string;
  full_name_en : option string;
  full_name_ta : option string
}.

(** One entry of [portfolio_meta["portfolio_data"]]; [member_code] is
    mandatory ([item["member_code"]]). *)
Record Member : Type := {
  member_code : string;
  member_code_ta : option string;
  portfolio : option string;
  portfolio_ta : option string
}.

(** ** Dictionaries *)

Section DictComprehension.
Context {A V : Type}.
Variable key : A -> string.
Variable val : A -> V.

(** [{key(a): val(a) for a in l}]: entries are inserted in list order. *)
Definition dict_comp (l : list A) : gmap string V :=
  fold_left (fun m a => <[key a := val a]> m) l ∅.

(** The last entry of [l] with key [k], the one a comprehension keeps. *)
Fixpoint last_match (k : string) (l : list A) : option A :=
  match l with
  | [] => None
  | a :: l' =>
      match last_match k l' with
      | Some b => Some b
      | None => if decide (key a = k) then Some a else None
      end
  end.
End DictComprehension.

(** [dict.get(k, d)] on a JSON object field. *)
Definition get {V : Type} (field : option V) (d : V) : V := default d field.

(** [beta_map = {item["isin"]: item.get("beta_1yr") for item in ...}] *)
Definition beta_map (metrics : list Metric) : gmap string (option float) :=
  dict_comp metric_isin beta_1yr metrics.

(** The inner dict [{"English": ..., "Tamil": ...}] of [bank_name_map]. *)
Record Names : Type := { names_English : string; names_Tamil : string }.

Definition bank_names (bank : Bank) : Names :=
  {| names_English := get (full_name_en bank) "";
     names_Tamil :=
       match full_name_ta bank with
       | Some ta => ta
       | None => get (full_name_en bank) ""
       end |}.

Definition bank_name_map (banks : list Bank) : gmap string Names :=
  dict_comp bank_isin bank_names banks.

(** [d.get(language, dflt)] where [d] is an inner dict of [bank_name_map]
    or, for [None], the empty dict [{}]. *)
Definition names_get (d : option Names) (language : Language)
    (dflt : string) : string :=
  match d with
  | None => dflt
  | Some n =>
      match language with
      | English => names_English n
      | Tamil => names_Tamil n
      end
  end.

(** The inner dict [{"member": ..., "portfolio": ...}] of [portfolio_map]. *)
Record MemberInfo : Type := { info_member : string; info_portfolio : string }.

Definition member_info (language : Language) (item : Member) : MemberInfo :=
  {| info_member :=
       match language with
       | Tamil => get (member_code_ta item) (member_code item)
       | English => member_code item
       end;
     info_portfolio :=
       match language with
       | Tamil => get (portfolio_ta item) ""
       | English => get (portfolio item) ""
       end |}.

Definition portfolio_map (language : Language) (items : list Member)
    : gmap string MemberInfo :=
  dict_comp member_code (member_info language) items.

(** ** The enriched data frame *)

Record Row : Type := {
  holding : Holding;
  Beta_1Y : float;
  Display_Name : string;
  Member_Display : string;
  Portfolio_Name : string;
  Profit_pct : float
}.

(** The reference documents of one rendering pass. *)
Record Refs : Type := {
  financial_metrics : list Metric;
  banks_data : list Bank;
  portfolio_data : list Member
}.

(** [df["ISIN"].map(beta_map)]: NaN for an ISIN outside the map and for a
    [None] value. *)
Definition lookup_beta (m : gmap string (option float)) (isin : string)
    : float :=
  match m !! isin with
  | Some (Some b) => b
  | _ => nan
  end.

(** [((market - cost) / cost) * 100] followed by [.round(2)]. *)
Definition profit_percent (market cost : float) : float :=
  round2 (mul (div (sub market cost) cost) (of_Z 100)).

Definition enrich_row (refs : Refs) (language : Language) (h : Holding)
    : Row :=
  {| holding := h;
     Beta_1Y := lookup_beta (beta_map (financial_metrics refs)) (ISIN h);
     Display_Name :=
       names_get (bank_name_map (banks_data refs) !! ISIN h) language
         (Stock_Name h);
     Member_Display :=
       match portfolio_map language (portfolio_data refs) !! Member_code h with
       | Some info => info_member info
       | None => Member_code h
       end;
     Portfolio_Name :=
       match portfolio_map language (portfolio_data refs) !! Member_code h with
       | Some info => info_portfolio info
       | None => ""
       end;
     Profit_pct :=
       profit_percent (Value_At_Market_Price h) (Value_At_Cost h) |}.

Definition enrich (refs : Refs) (language : Language) (df : list Holding)
    : list Row :=
  map (enrich_row refs language) df.

(** [filtered_df = df[df["Display Name"].isin(selected_stocks)]] *)
Definition filtered_df (selected_stocks : list string) (df : list Row)
    : list Row :=
  filter (fun r => Display_Name r ∈ selected_stocks) df.

(** ** Summary metrics *)

Definition cost (r : Row) : float := Value_At_Cost (holding r).
Definition market (r : Row) : float := Value_At_Market_Price (holding r).

Definition total_cost (df : list Row) : float := nansum (map cost df).
Definition total_market (df : list Row) : float := nansum (map market df).

(** [((total_market - total_cost) / total_cost) * 100 if total_cost else 0] *)
Definition profit_pct (df : list Row) : float :=
  if truthy (total_cost df)
  then mul (div (sub (total_market df) (total_cost df)) (total_cost df))
         (of_Z 100)
  else zero.

(** The column [filtered_df["Weight"]], per row. *)
Definition Weight (df : list Row) (r : Row) : float :=
  div (market r) (total_market df).

(** The column [filtered_df["Weighted Beta"]], per row. *)
Definition Weighted_Beta (df : list Row) (r : Row) : float :=
  mul (Beta_1Y r) (Weight df r).

Definition portfolio_beta (df : list Row) : float :=
  nansum (map (Weighted_Beta df) df).

Record Summary : Type := {
  sum_total_cost : float;
  sum_total_market : float;
  sum_profit_pct : float;
  sum_portfolio_beta : float
}.

Definition summarize (df : list Row) : Summary :=
  {| sum_total_cost := total_cost df;
     sum_total_market := total_market df;
     sum_profit_pct := profit_pct df;
     sum_portfolio_beta := portfolio_beta df |}.

(** ** Reference quantities

    Quantities that the script does not compute, against which its results
    are compared. *)


(** The cost-weighted average of the rounded per-holding percentages, the
    aggregation that the portfolio-level percentage is not. *)
Definition rounded_weighted_average (df : list Row) : float :=
  div (nansum (map (fun r => mul (cost r) (Profit_pct r)) df))
      (total_cost df).

(** ** Currency formatting *)

Module Format.

Definition rupee : string := "₹".

(** Decimal digits of a natural number, most significant first. *)
Definition digits (n : N) : string := NilZero.string_of_uint (N.to_uint n).

(** Thousands separators: a comma before every group of three digits,
    counted from the right.  [ds] holds the digits least significant
    first, [n] counts the digits of the current group. *)
Fixpoint group_rev (ds : list ascii) (n : nat) : list ascii :=
  match ds with
  | [] => []
  | d :: ds' =>
      if (n =? 3)%nat then "," %char :: d :: group_rev ds' 1
      else d :: group_rev ds' (S n)
  end.

Definition group3 (s : string) : string :=
  String.string_of_list_ascii
    (rev (group_rev (rev (String.list_ascii_of_string s)) 0)).

(** [f"{value:,.0f}"] for an [int]: the value is converted to [float]
    ([None]: [OverflowError]) and printed without decimals, grouped by
    thousands. *)
Definition format_comma_0f (value : Z) : option string :=
  match to_Z (of_Z value) with
  | Some n =>
      Some ((if n <? 0 then "-" else "") +:+ group3 (digits (Z.abs_N n)))
  | None => None
  end.

Section FormatInr.
(** The [try] block, [locale.setlocale(locale.LC_ALL, 'en_IN.UTF-8')]
    followed by [locale.currency(value, grouping=True)]: [None] when
    it raises, for instance because the runtime lacks the locale. *)
Variable locale_currency : Z -> option string.

(** [format_inr]; every call site passes [round(x)], an integer.
    [None]: an exception leaves the function. *)
Definition format_inr (value : Z) : option string :=
  match locale_currency value with
  | Some s => Some s
  | None =>
      match format_comma_0f value with
      | Some s => Some (rupee +:+ s)
      | None => None
      end
  end.
End FormatInr.

(** A runtime without the [en_IN.UTF-8] locale. *)
Definition no_locale : Z -> option string := fun _ => None.

(** Modelled from the spec: the regional grouping convention, "groups of
    two digits after the initial group of three"; the regional formatting
    facility itself belongs to the platform, not to this repository. *)
Fixpoint group_rev_regional (ds : list ascii) (n : nat) (first : bool)
    : list ascii :=
  match ds with
  | [] => []
  | d :: ds' =>
      if (n =? (if first then 3 else 2))%nat
      then "," %char :: d :: group_rev_regional ds' 1 false
      else d :: group_rev_regional ds' (S n) first
  end.

Definition regional_currency (value : Z) : string :=
  rupee +:+ (if value <? 0 then "-" else "")
    +:+ String.string_of_list_ascii
          (rev (group_rev_regional
                  (rev (String.list_ascii_of_string (digits (Z.abs_N value))))
                  0 true)).

End Format.

Import Format.

(** ** The stock filter, the table cells and the column headers *)

(** [Series.unique()]: the distinct values, in order of first
    appearance.  [seen] holds the values met so far. *)
Fixpoint unique_from (seen l : list string) : list string :=
  match l with
  | [] => []
  | x :: l' =>
      if decide (x ∈ seen) then unique_from seen l'
      else x :: unique_from (x :: seen) l'
  end.

Definition unique (l : list string) : list string := unique_from [] l.

(** [stock_options = df["Display Name"].unique()]; the multiselect offers
    these names and selects all of them by default. *)
Definition stock_options (df : list Row) : list string :=
  unique (map Display_Name df).

(** Python's [round(x)] of a float: the nearest integer, ties to even.
    [None]: it raises ([ValueError] for NaN, [OverflowError] for an
    infinity). *)
Definition py_round (x : float) : option Z := to_Z (rint x).

Section TableCells.
Variable locale_currency : Z -> option string.

(** [lambda x: format_inr(round(x))] *)
Definition format_cell (x : float) : option string :=
  match py_round x with
  | Some n => format_inr locale_currency n
  | None => None
  end.

(** [column.apply(lambda x: format_inr(round(x)))]: the cells are formatted
    in row order, and the first exception ends the pass. *)
Definition format_column (col : list float) : option (list string) :=
  mapM format_cell col.
End TableCells.

(** [column_map], an ordered dict from column names to the headers of the
    chosen language.  [header_labels[k]] raises [KeyError] for a missing
    key ([None] here); only ["portfolio_name"] has a default. *)
Definition column_map (header_labels : gmap string string)
    : option (list (string * string)) :=
  h_member ← header_labels !! "member_code";
  h_stock ← header_labels !! "stock_name";
  h_isin ← header_labels !! "isin";
  h_qty ← header_labels !! "qty";
  h_cost ← header_labels !! "value_cost";
  h_market ← header_labels !! "value_market";
  h_profit ← header_labels !! "profit_pct";
  h_beta ← header_labels !! "beta";
  Some [ ("Member Display", h_member);
         ("Portfolio Name",
          default "Portfolio" (header_labels !! "portfolio_name"));
         ("Display Name", h_stock);
         ("ISIN", h_isin);
         ("Qty", h_qty);
         ("Value At Cost", h_cost);
         ("Value At Market Price", h_market);
         ("Profit %", h_profit);
         ("Beta (1Y)", h_beta) ].

(** The header labels that [column_map] reads without a default. *)
Definition required_headers : list string :=
  [ "member_code"; "stock_name"; "isin"; "qty"; "value_cost";
    "value_market"; "profit_pct"; "beta" ].

(** [table_columns = list(column_map.keys())] *)
Definition table_columns : list string :=
  [ "Member Display"; "Portfolio Name"; "Display Name"; "ISIN"; "Qty";
    "Value At Cost"; "Value At Market Price"; "Profit %"; "Beta (1Y)" ].

(** ** Auxiliary notions for the formatting properties *)

(** The mantissa and the exponent of the binary64 value of a positive
    integer below 2^53: the integer shifted left until it fills the 53
    bits. *)
Definition aligned (m : positive) : positive * Z :=
  shl_align m 0 (Z.pos (digits2_pos m) - 53).

(** A string without its commas. *)
Definition strip_commas (s : string) : string :=
  String.string_of_list_ascii
    (filter (fun c => c ≠ "," %char) (String.list_ascii_of_string s)).

(** ** Auxiliary notions for the rounding analysis *)





(** ** Sample inputs *)

Module Sample.

(** A CSV row with whole-number amounts. *)
Definition row_of (isin name member : string) (c m : Z) : Holding :=
  {| ISIN := isin; Stock_Name := name; Member_code := member;
     Qty := of_Z 1; Value_At_Cost := of_Z c;
     Value_At_Market_Price := of_Z m; Sector_name := Some "Banking" |}.

Definition refs : Refs :=
  {| financial_metrics :=
       [ {| metric_isin := "INE001"; beta_1yr := Some (dec 12 1) |};
         {| metric_isin := "INE002"; beta_1yr := None |} ];
     banks_data :=
       [ {| bank_isin := "INE001"; full_name_en := Some "Alpha Bank";
            full_name_ta := Some "ஆல்பா வங்கி" |};
         {| bank_isin := "INE002"; full_name_en := Some "Beta Bank";
            full_name_ta := Some "" |};
         {| bank_isin := "INE003"; full_name_en := Some "Gamma Bank";
            full_name_ta := None |} ];
     portfolio_data :=
       [ {| member_code := "M1"; member_code_ta := Some "உ1";
            portfolio := Some "Growth"; portfolio_ta := Some "வளர்ச்சி" |} ]
  |}.

Definition alpha : Holding := row_of "INE001" "ALPHA" "M1" 1000 1200.
Definition alpha_m2 : Holding := row_of "INE001" "ALPHA" "M2" 500 450.
Definition beta : Holding := row_of "INE002" "BETA" "M1" 3 4.
Definition gamma : Holding := row_of "INE003" "GAMMA" "M1" 7 8.
Definition omega : Holding := row_of "INE999" "OMEGA" "M9" 0 100.
Definition idle : Holding := row_of "INE001" "ALPHA" "M1" 0 0.


(** Market values 600 and 400, betas 1.2 and null. *)
Definition sixty : Holding := row_of "INE001" "ALPHA" "M1" 500 600.
Definition forty : Holding := row_of "INE002" "BETA" "M1" 500 400.

Definition en (h : Holding) : Row := enrich_row refs English h.
Definition ta (h : Holding) : Row := enrich_row refs Tamil h.

End Sample.

(** * Properties *)

(** ** Dictionaries built by comprehension *)

Section DictFacts.
Context {A V : Type}.
Variable key : A -> string.
Variable val : A -> V.

Lemma fold_insert_lookup (l : list A) (m : gmap string V) (k : string) :
  fold_left (fun m a => <[key a := val a]> m) l m !! k =
  match last_match key k l with
  | Some a => Some (val a)
  | None => m !! k
  end.
Proof.
  revert m. induction l as [|a l IH]; intros m; simpl; [done|].
  rewrite IH. destruct (last_match key k l) as [b|]; [done|].
  destruct (decide (key a = k)) as [->|Hne].
  - by rewrite lookup_insert_eq.
  - by rewrite lookup_insert_ne.
Qed.

Lemma dict_comp_lookup (l : list A) (k : string) :
  dict_comp key val l !! k = val <$> last_match key k l.
Proof.
  unfold dict_comp. rewrite fold_insert_lookup, lookup_empty.
  by destruct (last_match key k l).
Qed.

Lemma last_match_None (l : list A) (k : string) :
  last_match key k l = None <-> (forall a, a ∈ l -> key a ≠ k).
Proof.
  induction l as [|a l IH]; simpl.
  - split; [|done]. intros _ a Ha. by apply elem_of_nil in Ha.
  - destruct (last_match key k l) as [b|].
    + split; [done|]. intros H. exfalso.
      assert (Hl : forall a0, a0 ∈ l -> key a0 ≠ k)
        by (intros a0 Ha0; apply H; by right).
      apply IH in Hl. discriminate.
    + destruct (decide (key a = k)) as [Heq|Hne].
      * split; [done|]. intros H. exfalso. apply (H a); [by left|done].
      * split; [|done]. intros _ a0 Ha0.
        apply elem_of_cons in Ha0 as [->|Ha0]; [done|].
        by apply IH.
Qed.

Lemma last_match_Some (l : list A) (k : string) (a : A) :
  last_match key k l = Some a -> a ∈ l /\ key a = k.
Proof.
  induction l as [|a0 l IH]; simpl; [done|].
  destruct (last_match key k l) as [b|].
  - intros [= <-]. destruct IH as [Hin Hk]; [done|]. split; [by right|done].
  - destruct (decide (key a0 = k)) as [Heq|Hne]; [|done].
    intros [= <-]. split; [by left|done].
Qed.
End DictFacts.

(** ** Sums that skip NaN *)

Lemma nansum_nil : nansum [] = zero.
Proof. reflexivity. Qed.



Lemma nansum_nans (l : list float) :
  Forall (fun x => is_nan x = true) l -> nansum l = zero.
Proof.
  unfold nansum. induction 1 as [|x l Hx _ IH]; simpl; [done|].
  destruct x; try discriminate; exact IH.
Qed.

(** A NaN entry counts as 0 in the sum. *)
Lemma nansum_nan_is_zero (l1 l2 : list float) :
  nansum (l1 ++ nan :: l2) = nansum (l1 ++ zero :: l2).
Proof. unfold nansum. by rewrite !map_app. Qed.


Lemma mul_nan_l (x : float) : mul nan x = nan.
Proof. by destruct x. Qed.


(** ** Filtering *)

Lemma filtered_df_nil_selection (df : list Row) : filtered_df [] df = [].
Proof.
  unfold filtered_df. induction df as [|r df IH]; [done|].
  rewrite filter_cons. destruct (decide _) as [Hin|_]; [|exact IH].
  by apply elem_of_nil in Hin.
Qed.

Lemma elem_of_filtered_df (sel : list string) (df : list Row) (r : Row) :
  r ∈ filtered_df sel df <-> Display_Name r ∈ sel /\ r ∈ df.
Proof. unfold filtered_df. by rewrite list_elem_of_filter. Qed.

(** * The claims *)

(** ** Per-holding profit percentage *)

(** C1. Every enriched holding carries, in its profit-percentage column,
    the value [((market - cost) / cost) * 100] rounded to two decimals;
    the rounding is part of the per-holding column, before any filtering
    or aggregation.  This holds for every holding, so in particular for
    those with cost value > 0.  With cost 1000 and market 1200 the column
    holds 20.00; with cost 3 and market 4 it holds the rounded 33.33. *)
Theorem profit_pct_per_holding :
  (forall refs language df,
      map Profit_pct (enrich refs language df) =
      map (fun h =>
             round2 (mul (div (sub (Value_At_Market_Price h)
                                   (Value_At_Cost h))
                              (Value_At_Cost h))
                         (of_Z 100)))
          df)
  /\ Profit_pct (Sample.en Sample.alpha) = of_Z 20
  /\ Profit_pct (Sample.en Sample.beta) = dec 3333 2.
Proof.
  split; [|split].
  - intros refs language df. unfold enrich. rewrite map_map.
    apply map_ext. intros h. reflexivity.
  - vm_compute. reflexivity.
  - vm_compute. reflexivity.
Qed.

(** ** Display names *)

(** C5, as stated, fails: the issuer "INE002" is in the issuer table with
    an empty Tamil name and the English name "Beta Bank"; with Tamil
    chosen, the display name is the empty Tamil name, not the English
    one. *)
Lemma empty_tamil_name_is_kept :
  last_match bank_isin "INE002" (banks_data Sample.refs) =
    Some {| bank_isin := "INE002"; full_name_en := Some "Beta Bank";
            full_name_ta := Some "" |}
  /\ Display_Name (enrich_row Sample.refs Tamil Sample.beta) = ""
  /\ Display_Name (enrich_row Sample.refs Tamil Sample.beta) ≠ "Beta Bank".
Proof. vm_compute. repeat split; discriminate. Qed.

(** C5, amended.  The display name of a holding is decided by the last
    entry of the issuer table with the holding's ISIN.  Without such an
    entry it is the holding's raw stock name.  With one, English shows the
    English name (the empty string when that key is absent), and Tamil
    shows the value of the Tamil name key whenever the key is present, even
    if that value is the empty string; only when the key is absent does
    Tamil fall back to the English name. *)
Theorem display_name_fallback (refs : Refs) (language : Language)
    (h : Holding) :
  Display_Name (enrich_row refs language h) =
  match last_match bank_isin (ISIN h) (banks_data refs) with
  | None => Stock_Name h
  | Some bank =>
      match language, full_name_ta bank with
      | Tamil, Some ta => ta
      | _, _ => default "" (full_name_en bank)
      end
  end.
Proof.
  unfold enrich_row, bank_name_map; simpl.
  rewrite dict_comp_lookup.
  destruct (last_match bank_isin (ISIN h) (banks_data refs)) as [bank|];
    simpl; [|done].
  destruct language; simpl; [done|].
  by destruct (full_name_ta bank).
Qed.

(** C9, as stated, fails: the member code "M9" is absent from the member
    master, and the member display is the code itself, not the empty
    string. *)
Lemma absent_member_shows_code :
  last_match member_code "M9" (portfolio_data Sample.refs) = None
  /\ Member_Display (enrich_row Sample.refs English Sample.omega) = "M9"
  /\ Member_Display (enrich_row Sample.refs English Sample.omega) ≠ "".
Proof. vm_compute. repeat split; discriminate. Qed.

(** C9, amended.  For every holding whose member code is absent from the
    portfolio/member master, the member display is the holding's raw
    member code and the portfolio name is the empty string. *)
Theorem absent_member_defaults (refs : Refs) (language : Language)
    (h : Holding) :
  (forall item, item ∈ portfolio_data refs ->
                member_code item ≠ Member_code h) ->
  Member_Display (enrich_row refs language h) = Member_code h
  /\ Portfolio_Name (enrich_row refs language h) = "".
Proof.
  intros Habsent. apply last_match_None in Habsent.
  unfold enrich_row, portfolio_map; simpl.
  rewrite dict_comp_lookup, Habsent. done.
Qed.

Lemma absent_member_defaults_witness :
  (forall item, item ∈ portfolio_data Sample.refs ->
                member_code item ≠ Member_code Sample.omega)
  /\ Member_Display (enrich_row Sample.refs Tamil Sample.omega) = "M9"
  /\ Portfolio_Name (enrich_row Sample.refs Tamil Sample.omega) = "".
Proof.
  assert (H : forall item, item ∈ portfolio_data Sample.refs ->
                           member_code item ≠ Member_code Sample.omega).
  { intros item Hin. apply list_elem_of_singleton in Hin. subst item.
    discriminate. }
  split; [exact H|].
  exact (absent_member_defaults Sample.refs Tamil Sample.omega H).
Defined.

(** ** Filtering by display name *)

(** C10. Two holdings of the data frame with the same display name are
    kept or dropped together by every selection. *)
Theorem same_name_filtered_together (selected_stocks : list string)
    (df : list Row) (r1 r2 : Row) :
  r1 ∈ df -> r2 ∈ df -> Display_Name r1 = Display_Name r2 ->
  (r1 ∈ filtered_df selected_stocks df <->
   r2 ∈ filtered_df selected_stocks df).
Proof.
  intros H1 H2 Hname. rewrite !elem_of_filtered_df, Hname. tauto.
Qed.

Lemma same_name_filtered_together_witness :
  let df := enrich Sample.refs English
              [Sample.alpha; Sample.beta; Sample.alpha_m2] in
  Member_Display (Sample.en Sample.alpha) ≠
    Member_Display (Sample.en Sample.alpha_m2)
  /\ (Sample.en Sample.alpha ∈ filtered_df ["Alpha Bank"] df <->
      Sample.en Sample.alpha_m2 ∈ filtered_df ["Alpha Bank"] df).
Proof.
  intros df. split; [vm_compute; discriminate|].
  apply (same_name_filtered_together ["Alpha Bank"] df
           (Sample.en Sample.alpha) (Sample.en Sample.alpha_m2)).
  - apply list_elem_of_here.
  - do 2 apply list_elem_of_further. apply list_elem_of_here.
  - vm_compute. reflexivity.
Defined.

(** ** The empty selection *)

(** C6. With an empty selection the filter keeps no row, whatever the data
    frame, and the summary of that empty result is total cost 0, total
    market 0, profit percentage 0 and portfolio beta 0.  The summary is a
    total function: no step of it can raise. *)
Theorem empty_selection_summary (df : list Row) :
  filtered_df [] df = []
  /\ summarize (filtered_df [] df) =
     {| sum_total_cost := zero; sum_total_market := zero;
        sum_profit_pct := zero; sum_portfolio_beta := zero |}.
Proof.
  rewrite filtered_df_nil_selection. split; reflexivity.
Qed.

(** ** Zero cost *)

(** C7, as stated, fails: two holdings with cost value 0 get different
    markers, positive infinity for a market value of 100 and NaN for a
    market value of 0. *)
Lemma zero_cost_markers_differ :
  Value_At_Cost Sample.omega = zero
  /\ Value_At_Cost Sample.idle = zero
  /\ Profit_pct (Sample.en Sample.omega) = pinf
  /\ Profit_pct (Sample.en Sample.idle) = nan
  /\ Profit_pct (Sample.en Sample.omega) ≠ Profit_pct (Sample.en Sample.idle).
Proof. vm_compute. repeat split; discriminate. Qed.

(** C7, amended.  For any holding with cost value 0 (of either sign) the
    per-holding profit percentage is computed without raising, and it is
    never a finite number: NaN when the market value is 0 or NaN, and
    otherwise an infinity with the sign of the market value (reversed when
    the cost is the negative zero). *)
Theorem zero_cost_profit_pct (refs : Refs) (language : Language)
    (h : Holding) (sc : bool) :
  Value_At_Cost h = S754_zero sc ->
  Profit_pct (enrich_row refs language h) =
  match Value_At_Market_Price h with
  | S754_zero _ | S754_nan => nan
  | S754_infinity s | S754_finite s _ _ => S754_infinity (xorb s sc)
  end.
Proof.
  intros Hc. unfold enrich_row, profit_percent; simpl. rewrite Hc.
  destruct (Value_At_Market_Price h) as [[]|[]| |[] m e], sc; reflexivity.
Qed.

Lemma zero_cost_profit_pct_witness :
  Value_At_Cost Sample.omega = S754_zero false
  /\ Profit_pct (enrich_row Sample.refs English Sample.omega) = pinf.
Proof.
  split; [reflexivity|].
  exact (zero_cost_profit_pct Sample.refs English Sample.omega false
           eq_refl).
Defined.

(** ** Weights

    The facts of this section are exact.  The distance of the sum of the
    weights from 1 needs a bound on the rounding errors and is settled in
    the last part. *)

Lemma div_eucl_shiftl_self (m : positive) (n : Z) :
  0 <= n -> Z.div_eucl (Z.shiftl (Zpos m) n) (Zpos m) = (2 ^ n, 0).
Proof.
  intros Hn.
  pose proof (Z.div_eucl_eq (Z.shiftl (Zpos m) n) (Zpos m)) as Heq.
  assert (Hq : Z.shiftl (Zpos m) n / Zpos m = 2 ^ n).
  { rewrite Z.shiftl_mul_pow2 by done. rewrite Z.mul_comm.
    apply Z.div_mul. done. }
  assert (Hr : Z.shiftl (Zpos m) n mod Zpos m = 0).
  { rewrite Z.shiftl_mul_pow2 by done. rewrite Z.mul_comm.
    apply Z.mod_mul. done. }
  unfold Z.div, Z.modulo in Hq, Hr.
  destruct (Z.div_eucl (Z.shiftl (Zpos m) n) (Zpos m)) as [q r].
  simpl in Hq, Hr. by subst.
Qed.

(** A finite nonzero value divided by itself is exactly 1. *)
Lemma div_self (s : bool) (m : positive) (e : Z) :
  div (S754_finite s m e) (S754_finite s m e) = of_Z 1.
Proof.
  unfold div, SFdiv, SFdiv_core_binary. simpl Zdigits2.
  rewrite !Z.sub_diag.
  change (Z.min (fexp prec emax 0) 0) with (-53).
  change (0 - -53) with 53.
  cbv iota.
  change (IntDef.Z.div_eucl _ _)
    with (Z.div_eucl (Z.shiftl (Z.pos m) 53) (Z.pos m)).
  rewrite (div_eucl_shiftl_self m 53) by done.
  assert (Hloc : new_location (Z.pos m) 0 = loc_Exact)
    by (destruct m; reflexivity).
  rewrite Hloc. destruct s; reflexivity.
Qed.


Lemma total_market_singleton (r : Row) (s : bool) (m : positive) (e : Z) :
  market r = S754_finite s m e -> total_market [r] = S754_finite s m e.
Proof. unfold total_market, nansum; simpl. by intros ->. Qed.

(** The binary64 weights of the market values 600 and 400 are 0.6 and 0.4
    and sum to exactly 1.0. *)
Example weights_600_400 :
  let df := [Sample.en Sample.sixty; Sample.en Sample.forty] in
  map (Weight df) df = [dec 6 1; dec 4 1]
  /\ nansum (map (Weight df) df) = of_Z 1.
Proof. vm_compute. split; reflexivity. Qed.

(** ** Portfolio beta *)

Lemma fillna0_weighted (beta w : float) :
  fillna0 (mul beta w) =
  if is_nan beta then zero else fillna0 (mul beta w).
Proof. by destruct beta. Qed.

(** C2. In summarize, the portfolio beta is the sum, over the filtered
    holdings, of beta_i * weight_i with weight_i = market_i / totalMarket,
    in which a holding with a null beta counts as 0 (as does any other
    term that is NaN).  A holding has a null beta exactly when the beta
    table has no entry for its ISIN or its entry carries no beta.  For two
    holdings with market values 600 and 400, hence weights 0.6 and 0.4, and
    betas 1.2 and null, the portfolio beta is 0.72. *)
Theorem portfolio_beta_weighted_sum :
  (forall df,
      sum_portfolio_beta (summarize df) =
      fold_left add
        (map (fun r =>
                if is_nan (Beta_1Y r) then zero
                else fillna0 (mul (Beta_1Y r)
                                  (div (market r) (total_market df))))
             df)
        zero)
  /\ (forall refs language h,
        Beta_1Y (enrich_row refs language h) =
        match last_match metric_isin (ISIN h) (financial_metrics refs) with
        | Some item => default nan (beta_1yr item)
        | None => nan
        end)
  /\ (let df := filtered_df ["Alpha Bank"; "Beta Bank"]
                  (enrich Sample.refs English [Sample.sixty; Sample.forty]) in
      map Beta_1Y df = [dec 12 1; nan]
      /\ map (Weight df) df = [dec 6 1; dec 4 1]
      /\ sum_portfolio_beta (summarize df) = dec 72 2).
Proof.
  split; [|split].
  - intros df. unfold summarize, portfolio_beta, nansum; simpl.
    rewrite map_map. f_equal. apply map_ext. intros r.
    apply fillna0_weighted.
  - intros refs language h. unfold enrich_row, lookup_beta, beta_map; simpl.
    rewrite dict_comp_lookup.
    destruct (last_match metric_isin (ISIN h) (financial_metrics refs))
      as [item|]; simpl; [|done].
    by destruct (beta_1yr item).
  - vm_compute. repeat split.
Qed.

(** ** Portfolio profit percentage *)

(** C4. In summarize, the portfolio-level profit percentage is
    [(totalMarket - totalCost) / totalCost * 100] over the totals of the
    filtered subset, which are sums of the unrounded cost and market
    values, and it is 0 when the total cost is 0.  It is not the weighted
    average of the rounded per-holding percentages: for costs 3 and 7 with
    market values 4 and 8 the per-holding percentages are 33.33 and 14.29,
    the portfolio percentage is 20, and the cost-weighted average of the
    rounded percentages is 20.002. *)
Theorem portfolio_profit_pct_from_totals :
  (forall df,
      sum_profit_pct (summarize df) =
      if is_zero (nansum (map cost df)) then zero
      else mul (div (sub (nansum (map market df)) (nansum (map cost df)))
                    (nansum (map cost df)))
               (of_Z 100))
  /\ (let df := enrich Sample.refs English [Sample.beta; Sample.gamma] in
      map Profit_pct df = [dec 3333 2; dec 1429 2]
      /\ sum_profit_pct (summarize df) = of_Z 20
      /\ rounded_weighted_average df = dec 20002 3
      /\ sum_profit_pct (summarize df) ≠ rounded_weighted_average df).
Proof.
  split.
  - intros df. unfold summarize, profit_pct, truthy; simpl.
    fold (total_cost df). by destruct (is_zero (total_cost df)).
  - vm_compute. repeat split; discriminate.
Qed.

(** ** Currency formatting *)

(** C8: the fallback of [format_inr].  In a runtime without the regional
    locale the function does not fail, but it groups the digits by
    thousands: 1234567 is rendered as "₹1,234,567", not as the "₹12,34,567"
    of the regional convention that the comment above the function
    announces.  Amounts below 1000, such as 0, are rendered alike. *)
Theorem format_inr_fallback_grouping :
  format_inr no_locale 1234567 = Some "₹1,234,567"
  /\ regional_currency 1234567 = "₹12,34,567"
  /\ format_inr no_locale 1234567 ≠ Some (regional_currency 1234567)
  /\ format_inr no_locale 0 = Some "₹0"
  /\ regional_currency 0 = "₹0".
Proof. vm_compute. repeat split; discriminate. Qed.

(** When the regional facility answers, its string is returned as it
    is. *)
Lemma format_inr_regional (locale_currency : Z -> option string)
    (value : Z) (s : string) :
  locale_currency value = Some s ->
  format_inr locale_currency value = Some s.
Proof. unfold format_inr. by intros ->. Qed.

(** * Further properties of the pipeline *)

(** ** Lookup tables with repeated keys *)

Section LastEntry.
Context {A : Type}.
Variable key : A -> string.

Lemma last_match_app (l1 l2 : list A) (a : A) (k : string) :
  key a = k -> (forall b, b ∈ l2 -> key b ≠ k) ->
  last_match key k (l1 ++ a :: l2) = Some a.
Proof.
  intros Ha Hl2. apply (last_match_None key) in Hl2.
  induction l1 as [|x l1 IH]; simpl.
  - rewrite Hl2. by rewrite decide_True.
  - by rewrite IH.
Qed.
End LastEntry.

(** When the issuer master lists an ISIN more than once, the last entry
    decides the display name: entries before it are ignored, whatever
    they hold. *)
Theorem last_issuer_entry_decides (refs : Refs) (language : Language)
    (h : Holding) (before after : list Bank) (bank : Bank) :
  banks_data refs = before ++ bank :: after ->
  bank_isin bank = ISIN h ->
  (forall b, b ∈ after -> bank_isin b ≠ ISIN h) ->
  Display_Name (enrich_row refs language h) =
  names_get (Some (bank_names bank)) language (Stock_Name h).
Proof.
  intros Hdata Hisin Hafter. unfold enrich_row, bank_name_map; simpl.
  rewrite dict_comp_lookup, Hdata.
  by rewrite (last_match_app bank_isin before after bank (ISIN h)).
Qed.

Lemma last_issuer_entry_decides_witness :
  let stale := {| bank_isin := "INE001"; full_name_en := Some "Old Name";
                  full_name_ta := None |} in
  let refs := {| financial_metrics := []; portfolio_data := [];
                 banks_data := stale :: banks_data Sample.refs |} in
  Display_Name (enrich_row refs English Sample.alpha) = "Alpha Bank".
Proof.
  intros stale refs.
  apply (last_issuer_entry_decides refs English Sample.alpha [stale]
           (List.tl (banks_data Sample.refs))
           (List.hd stale (banks_data Sample.refs))).
  - reflexivity.
  - reflexivity.
  - intros b Hb. simpl in Hb.
    apply elem_of_cons in Hb as [->|Hb]; [discriminate|].
    apply list_elem_of_singleton in Hb. subst b. discriminate.
Defined.

(** ** Member display *)

(** With English chosen, the member display of every holding is its own
    member code, whether or not the member master knows the code and
    whatever the master's entries hold. *)
Theorem english_member_display_is_code (refs : Refs) (h : Holding) :
  Member_Display (enrich_row refs English h) = Member_code h.
Proof.
  unfold enrich_row, portfolio_map; simpl. rewrite dict_comp_lookup.
  destruct (last_match member_code (Member_code h) (portfolio_data refs))
    as [item|] eqn:Hm; simpl; [|done].
  by apply last_match_Some in Hm as [_ Hk].
Qed.

(** For a member code that the master knows, the last entry with that code
    supplies the labels: in Tamil the member display is the entry's Tamil
    member code, or the code itself when the entry has none, and the
    portfolio name is the entry's portfolio name in the chosen language,
    or the empty string when the entry has none. *)
Theorem known_member_labels (refs : Refs) (h : Holding)
    (before after : list Member) (item : Member) :
  portfolio_data refs = before ++ item :: after ->
  member_code item = Member_code h ->
  (forall i, i ∈ after -> member_code i ≠ Member_code h) ->
  Member_Display (enrich_row refs Tamil h) =
    default (Member_code h) (member_code_ta item)
  /\ Portfolio_Name (enrich_row refs Tamil h) =
       default "" (portfolio_ta item)
  /\ Portfolio_Name (enrich_row refs English h) =
       default "" (portfolio item).
Proof.
  intros Hdata Hcode Hafter. unfold enrich_row, portfolio_map; simpl.
  rewrite !dict_comp_lookup, Hdata.
  rewrite (last_match_app member_code before after item (Member_code h))
    by done.
  simpl. unfold get. by rewrite Hcode.
Qed.

Lemma known_member_labels_witness :
  Member_Display (enrich_row Sample.refs Tamil Sample.alpha) = "உ1"
  /\ Portfolio_Name (enrich_row Sample.refs Tamil Sample.alpha) = "வளர்ச்சி"
  /\ Portfolio_Name (enrich_row Sample.refs English Sample.alpha) = "Growth".
Proof.
  apply (known_member_labels Sample.refs Sample.alpha [] []
           (List.hd {| member_code := ""; member_code_ta := None;
                       portfolio := None; portfolio_ta := None |}
                    (portfolio_data Sample.refs))).
  - reflexivity.
  - reflexivity.
  - intros i Hi. by apply elem_of_nil in Hi.
Defined.

(** ** Enrichment and filtering *)

(** Filtering the enriched frame keeps exactly the holdings whose resolved
    display name is selected, in their original order and with their
    original columns: enrichment neither drops, repeats nor reorders
    rows. *)
Theorem filter_after_enrich (refs : Refs) (language : Language)
    (selected_stocks : list string) (df : list Holding) :
  map holding (filtered_df selected_stocks (enrich refs language df)) =
  filter (fun h => Display_Name (enrich_row refs language h)
                     ∈ selected_stocks) df.
Proof.
  unfold filtered_df, enrich. induction df as [|h df IH]; [done|].
  simpl map. rewrite !filter_cons.
  destruct (decide _) as [Hin|Hout]; simpl; by rewrite IH.
Qed.

Lemma filtered_df_all (selected_stocks : list string) (df : list Row) :
  (forall r, r ∈ df -> Display_Name r ∈ selected_stocks) ->
  filtered_df selected_stocks df = df.
Proof.
  unfold filtered_df. induction df as [|r df IH]; intros Hall; [done|].
  rewrite filter_cons, decide_True by (apply Hall; by left).
  f_equal. apply IH. intros r' Hr'. apply Hall. by right.
Qed.

(** The filtered frame is a subsequence of the frame (rows keep their
    order), and filtering it again with the same selection changes
    nothing. *)
Theorem filtered_df_stable (selected_stocks : list string)
    (df : list Row) :
  sublist (filtered_df selected_stocks df) df
  /\ filtered_df selected_stocks (filtered_df selected_stocks df) =
     filtered_df selected_stocks df.
Proof.
  split.
  - unfold filtered_df. apply sublist_filter.
  - apply filtered_df_all. intros r Hr.
    by apply elem_of_filtered_df in Hr as [Hsel _].
Qed.

(** Only the set of selected names matters: two selections with the same
    members, in any order and with any repetitions, give the same filtered
    frame. *)
Theorem selection_is_a_set (sel1 sel2 : list string) (df : list Row) :
  (forall x, x ∈ sel1 <-> x ∈ sel2) ->
  filtered_df sel1 df = filtered_df sel2 df.
Proof.
  intros Hsame. unfold filtered_df. induction df as [|r df IH]; [done|].
  rewrite !filter_cons, IH.
  destruct (decide (Display_Name r ∈ sel1)) as [H1|H1],
           (decide (Display_Name r ∈ sel2)) as [H2|H2]; try done.
  - by apply Hsame in H1.
  - by apply Hsame in H2.
Qed.

Lemma selection_is_a_set_witness :
  let df := enrich Sample.refs English
              [Sample.alpha; Sample.beta; Sample.gamma] in
  filtered_df ["Beta Bank"; "Alpha Bank"; "Beta Bank"] df =
  filtered_df ["Alpha Bank"; "Beta Bank"] df.
Proof.
  intros df. apply selection_is_a_set. intros x.
  rewrite !elem_of_cons, !elem_of_nil. tauto.
Defined.

(** ** The stock options *)

Lemma unique_from_elem (seen l : list string) (x : string) :
  x ∈ unique_from seen l <-> x ∈ l /\ x ∉ seen.
Proof.
  revert seen. induction l as [|y l IH]; intros seen; simpl.
  - rewrite elem_of_nil. tauto.
  - destruct (decide (y ∈ seen)) as [Hy|Hy].
    + rewrite IH, elem_of_cons. split; [tauto|].
      intros [[->|Hx] Hn]; [done|tauto].
    + rewrite elem_of_cons, IH, !elem_of_cons. split.
      * intros [->|[Hx Hn]]; [tauto|]. split; [tauto|].
        intros Hs. apply Hn. by right.
      * intros [[->|Hx] Hn]; [tauto|].
        destruct (decide (x = y)) as [->|Hne]; [tauto|].
        right. split; [done|]. intros [?|?]; done.
Qed.

Lemma unique_from_NoDup (seen l : list string) : NoDup (unique_from seen l).
Proof.
  revert seen. induction l as [|y l IH]; intros seen; simpl.
  - constructor.
  - destruct (decide (y ∈ seen)); [apply IH|].
    constructor; [|apply IH].
    rewrite unique_from_elem. intros [_ Hn]. apply Hn. by left.
Qed.

Lemma elem_of_stock_options (df : list Row) (name : string) :
  name ∈ stock_options df <-> exists r, r ∈ df /\ Display_Name r = name.
Proof.
  unfold stock_options, unique.
  rewrite unique_from_elem, list_elem_of_fmap. split.
  - intros [(r & -> & Hr) _]. by exists r.
  - intros (r & Hr & <-). split; [by exists r|]. apply not_elem_of_nil.
Qed.

(** The stock options list every display name of the frame exactly
    once. *)
Theorem stock_options_distinct (df : list Row) :
  NoDup (stock_options df)
  /\ (forall name, name ∈ stock_options df <->
                   exists r, r ∈ df /\ Display_Name r = name).
Proof.
  split; [apply unique_from_NoDup|]. apply elem_of_stock_options.
Qed.

(** With the default selection, all stock options, the filter keeps every
    row of the frame. *)
Theorem default_selection_keeps_all (df : list Row) :
  filtered_df (stock_options df) df = df.
Proof.
  apply filtered_df_all. intros r Hr.
  apply elem_of_stock_options. by exists r.
Qed.

(** ** Summaries *)

(** When no selected holding has a beta, the portfolio beta is 0, not
    missing. *)
Theorem portfolio_beta_without_betas (df : list Row) :
  (forall r, r ∈ df -> is_nan (Beta_1Y r) = true) ->
  portfolio_beta df = zero.
Proof.
  intros Hnan. unfold portfolio_beta. apply nansum_nans.
  apply Forall_map, Forall_forall. intros r Hr. unfold Weighted_Beta.
  specialize (Hnan r Hr). by destruct (Beta_1Y r).
Qed.

Lemma portfolio_beta_without_betas_witness :
  portfolio_beta (enrich Sample.refs English [Sample.beta; Sample.omega])
  = zero.
Proof.
  apply portfolio_beta_without_betas. intros r Hr.
  apply elem_of_cons in Hr as [->|Hr]; [reflexivity|].
  apply list_elem_of_singleton in Hr. by subst r.
Defined.

Lemma summarize_ext (df1 df2 : list Row) :
  map holding df1 = map holding df2 ->
  map Beta_1Y df1 = map Beta_1Y df2 ->
  summarize df1 = summarize df2.
Proof.
  intros Hh Hb.
  assert (Hc : map cost df1 = map cost df2).
  { unfold cost. by rewrite <- !(map_map holding Value_At_Cost), Hh. }
  assert (Hm : map market df1 = map market df2).
  { unfold market.
    by rewrite <- !(map_map holding Value_At_Market_Price), Hh. }
  assert (Htc : total_cost df1 = total_cost df2)
    by (unfold total_cost; by rewrite Hc).
  assert (Htm : total_market df1 = total_market df2)
    by (unfold total_market; by rewrite Hm).
  unfold summarize, profit_pct, portfolio_beta. rewrite Htc, Htm.
  do 2 f_equal.
  assert (Hw : forall t (l1 l2 : list Row),
             map market l1 = map market l2 ->
             map Beta_1Y l1 = map Beta_1Y l2 ->
             map (fun r => mul (Beta_1Y r) (div (market r) t)) l1 =
             map (fun r => mul (Beta_1Y r) (div (market r) t)) l2).
  { intros t l1. induction l1 as [|r1 l1 IH]; intros [|r2 l2] H1 H2;
      try done.
    simpl in *. injection H1 as Hm1 H1. injection H2 as Hb1 H2.
    rewrite Hm1, Hb1. f_equal. by apply IH. }
  unfold Weighted_Beta, Weight. rewrite Htm. by apply Hw.
Qed.

(** The summary does not depend on the language: under the default
    selection the totals, the profit percentage and the portfolio beta of
    the English and the Tamil pass are the same. *)
Theorem summary_language_independent (refs : Refs) (df : list Holding) :
  let english := enrich refs English df in
  let tamil := enrich refs Tamil df in
  summarize (filtered_df (stock_options english) english) =
  summarize (filtered_df (stock_options tamil) tamil).
Proof.
  intros english tamil.
  assert (Hall : forall d, filtered_df (stock_options d) d = d).
  { intros d. apply filtered_df_all. intros r Hr.
    apply elem_of_stock_options. by exists r. }
  rewrite !Hall.
  apply summarize_ext; unfold english, tamil, enrich;
    rewrite !map_map; by apply map_ext.
Qed.

(** ** Column headers *)

Lemma column_map_Some (header_labels : gmap string string) :
  (forall k, k ∈ required_headers -> is_Some (header_labels !! k)) ->
  exists cm, column_map header_labels = Some cm
             /\ map fst cm = table_columns
             /\ cm !! 1%nat =
                Some ("Portfolio Name",
                      default "Portfolio" (header_labels !! "portfolio_name")).
Proof.
  intros Hreq. unfold column_map.
  assert (H1 := Hreq "member_code" ltac:(set_solver)).
  assert (H2 := Hreq "stock_name" ltac:(set_solver)).
  assert (H3 := Hreq "isin" ltac:(set_solver)).
  assert (H4 := Hreq "qty" ltac:(set_solver)).
  assert (H5 := Hreq "value_cost" ltac:(set_solver)).
  assert (H6 := Hreq "value_market" ltac:(set_solver)).
  assert (H7 := Hreq "profit_pct" ltac:(set_solver)).
  assert (H8 := Hreq "beta" ltac:(set_solver)).
  destruct H1 as [? ->], H2 as [? ->], H3 as [? ->], H4 as [? ->],
           H5 as [? ->], H6 as [? ->], H7 as [? ->], H8 as [? ->].
  simpl. eexists. split; [reflexivity|]. split; reflexivity.
Qed.

Lemma column_map_None (header_labels : gmap string string) (k : string) :
  k ∈ required_headers -> header_labels !! k = None ->
  column_map header_labels = None.
Proof.
  intros Hk Hnone. unfold column_map, required_headers in *.
  repeat (apply elem_of_cons in Hk as [->|Hk];
          [rewrite Hnone; simpl;
           repeat (match goal with
                   | |- context [?m !! ?j ≫= _] =>
                       destruct (m !! j); simpl
                   end); reflexivity|]).
  by apply elem_of_nil in Hk.
Qed.

(** The column headers can be built exactly when the eight header labels
    without a default are present; a missing one raises.  The
    ["portfolio_name"] label is optional and defaults to "Portfolio".
    Whenever the headers can be built, the table has the same nine columns
    in the same order. *)
Theorem column_map_requirements (header_labels : gmap string string) :
  (column_map header_labels = None <->
   exists k, k ∈ required_headers /\ header_labels !! k = None)
  /\ (forall cm, column_map header_labels = Some cm ->
        map fst cm = table_columns
        /\ cm !! 1%nat =
           Some ("Portfolio Name",
                 default "Portfolio" (header_labels !! "portfolio_name"))).
Proof.
  split.
  - split.
    + intros Hnone.
      destruct (decide (Forall (fun k => is_Some (header_labels !! k))
                          required_headers)) as [Hall|Hnot].
      * rewrite Forall_forall in Hall.
        destruct (column_map_Some header_labels Hall) as (cm & Hcm & _).
        congruence.
      * apply not_Forall_Exists in Hnot; [|apply _].
        apply Exists_exists in Hnot as (k & Hk & Hn).
        exists k. split; [done|]. by apply eq_None_not_Some.
    + intros (k & Hk & Hn). by apply (column_map_None header_labels k).
  - intros cm Hcm.
    destruct (decide (Forall (fun k => is_Some (header_labels !! k))
                        required_headers)) as [Hall|Hnot].
    + rewrite Forall_forall in Hall.
      destruct (column_map_Some header_labels Hall) as (cm' & Hcm' & Hp).
      by replace cm with cm' by congruence.
    + apply not_Forall_Exists in Hnot; [|apply _].
      apply Exists_exists in Hnot as (k & Hk & Hn).
      apply eq_None_not_Some in Hn.
      rewrite (column_map_None header_labels k Hk Hn) in Hcm. discriminate.
Qed.

Lemma column_map_requirements_witness :
  let header_labels : gmap string string :=
    list_to_map
      [ ("member_code", "Member"); ("stock_name", "Stock");
        ("isin", "ISIN"); ("qty", "Quantity"); ("value_cost", "Cost");
        ("value_market", "Market Value"); ("profit_pct", "Profit %");
        ("beta", "Beta") ] in
  exists cm, column_map header_labels = Some cm
             /\ map fst cm = table_columns
             /\ cm !! 1%nat = Some ("Portfolio Name", "Portfolio").
Proof.
  intros header_labels.
  destruct (column_map header_labels) as [cm|] eqn:Hcm;
    [|vm_compute in Hcm; discriminate].
  exists cm. split; [reflexivity|].
  exact (proj2 (column_map_requirements header_labels) cm Hcm).
Defined.

(** ** Where NaN can come from *)

Section RoundingFacts.

Lemma iter_pos_invariant {A : Type} (P : A -> Prop) (f : A -> A) :
  (forall x, P x -> P (f x)) ->
  forall p x, P x -> P (iter_pos f p x).
Proof. intros Hf. induction p; intros x Hx; simpl; auto. Qed.

Lemma shr_1_nonneg (mrs : shr_record) :
  0 <= shr_m mrs -> 0 <= shr_m (shr_1 mrs).
Proof.
  destruct mrs as [m r s]. destruct m as [|[p|p|]|[p|p|]]; simpl; lia.
Qed.

Lemma shr_fexp_nonneg (m e : Z) (l : location) :
  0 <= m -> 0 <= shr_m (fst (shr_fexp prec emax m e l)).
Proof.
  intros Hm. unfold shr_fexp, shr.
  assert (H0 : 0 <= shr_m (shr_record_of_loc m l))
    by (destruct l as [|[]]; exact Hm).
  destruct (fexp prec emax (Zdigits2 m + e) - e) as [|p|p]; simpl;
    try exact H0.
  by apply (iter_pos_invariant (fun mrs => 0 <= shr_m mrs) shr_1 shr_1_nonneg).
Qed.

Lemma round_nearest_even_nonneg (m : Z) (l : location) :
  0 <= m -> 0 <= round_nearest_even m l.
Proof.
  intros Hm. destruct l as [|[]]; simpl; try lia.
  destruct (Z.even m); lia.
Qed.

Lemma binary_round_aux_not_nan (sx : bool) (mx ex : Z) (lx : location) :
  0 <= mx -> is_nan (binary_round_aux prec emax sx mx ex lx) = false.
Proof.
  intros Hm. unfold binary_round_aux.
  pose proof (shr_fexp_nonneg mx ex lx Hm) as H1.
  destruct (shr_fexp prec emax mx ex lx) as [mrs' e']. simpl in H1.
  pose proof (shr_fexp_nonneg
                (round_nearest_even (shr_m mrs') (loc_of_shr_record mrs'))
                e' loc_Exact
                (round_nearest_even_nonneg _ _ H1)) as H2.
  destruct (shr_fexp prec emax _ e' loc_Exact) as [mrs'' e'']. simpl in H2.
  destruct (shr_m mrs'') as [|p|p]; [done| |lia].
  by destruct (e'' <=? emax - prec).
Qed.

Lemma binary_normalize_not_nan (m e : Z) (s : bool) :
  is_nan (binary_normalize prec emax m e s) = false.
Proof.
  destruct m as [|p|p]; simpl; [done| |];
    unfold binary_round;
    destruct (shl_align _ _ _) as [mz ez];
    by apply binary_round_aux_not_nan.
Qed.

End RoundingFacts.

Lemma hundred_finite : of_Z 100 = S754_finite false 7036874417766400 (-46).
Proof. reflexivity. Qed.

Lemma sub_finite_not_nan (x : float) (s : bool) (m : positive) (e : Z) :
  is_nan x = false -> is_nan (sub x (S754_finite s m e)) = false.
Proof.
  destruct x as [sx|sx| |sx mx ex]; intros Hx; try done.
  unfold sub, SFsub. apply binary_normalize_not_nan.
Qed.

Lemma div_finite_not_nan (x : float) (s : bool) (m : positive) (e : Z) :
  is_nan x = false -> is_nan (div x (S754_finite s m e)) = false.
Proof.
  destruct x as [sx|sx| |sx mx ex]; intros Hx; try done.
  unfold div, SFdiv, SFdiv_core_binary.
  set (num := match _ with 0 => Z.pos mx | Z.pos _ => _ | Z.neg _ => 0 end).
  assert (Hnum : 0 <= num).
  { unfold num. destruct (_ - _ - _) as [|p|p]; try lia.
    apply Z.shiftl_nonneg. lia. }
  pose proof (Z.div_pos num (Z.pos m) Hnum ltac:(lia)) as Hq.
  unfold Z.div in Hq.
  change (IntDef.Z.div_eucl num (Z.pos m)) with (Z.div_eucl num (Z.pos m)).
  destruct (Z.div_eucl num (Z.pos m)) as [q r]. simpl in Hq.
  by apply binary_round_aux_not_nan.
Qed.

Lemma mul_finite_not_nan (x : float) (s : bool) (m : positive) (e : Z) :
  is_nan x = false -> is_nan (mul x (S754_finite s m e)) = false.
Proof.
  destruct x as [sx|sx| |sx mx ex]; intros Hx; try done.
  unfold mul, SFmul. by apply binary_round_aux_not_nan.
Qed.

Lemma rint_not_nan (x : float) : is_nan x = false -> is_nan (rint x) = false.
Proof.
  destruct x as [sx|sx| |sx mx ex]; intros Hx; try done.
  unfold rint. destruct (0 <=? ex); [done|].
  destruct (Z.div_eucl _ _) as [q r]. apply binary_normalize_not_nan.
Qed.

(** The profit percentage of a holding with a finite nonzero cost and a
    market value that is not missing is never missing: NaN can only come
    from a cost that is 0, NaN or infinite, or from a missing market
    value. *)
Theorem profit_pct_defined (refs : Refs) (language : Language)
    (h : Holding) (s : bool) (m : positive) (e : Z) :
  Value_At_Cost h = S754_finite s m e ->
  is_nan (Value_At_Market_Price h) = false ->
  is_nan (Profit_pct (enrich_row refs language h)) = false.
Proof.
  intros Hc Hm.
  change (Profit_pct (enrich_row refs language h))
    with (profit_percent (Value_At_Market_Price h) (Value_At_Cost h)).
  unfold profit_percent, round2. rewrite Hc, hundred_finite.
  apply div_finite_not_nan. apply rint_not_nan.
  do 2 apply mul_finite_not_nan.
  apply div_finite_not_nan. apply sub_finite_not_nan. exact Hm.
Qed.

Lemma profit_pct_defined_witness :
  is_nan (Profit_pct (enrich_row Sample.refs English Sample.gamma)) = false.
Proof.
  apply (profit_pct_defined Sample.refs English Sample.gamma false
           7881299347898368%positive (-50)); reflexivity.
Defined.

Lemma add_finite_not_nan (acc x : float) :
  is_nan acc = false -> is_finite x = true -> is_nan (add acc x) = false.
Proof.
  destruct acc as [sa|sa| |sa ma ea], x as [sx|sx| |sx mx ex];
    intros Ha Hx; try done.
  - by destruct sa, sx.
  - unfold add, SFadd. apply binary_normalize_not_nan.
Qed.

Lemma nansum_not_nan (l : list float) :
  (forall x s, x ∈ l -> x ≠ S754_infinity s) -> is_nan (nansum l) = false.
Proof.
  intros Hl. unfold nansum.
  assert (Hgen : forall acc, is_nan acc = false ->
                 is_nan (fold_left add (map fillna0 l) acc) = false).
  { induction l as [|x l IH]; intros acc Hacc; simpl; [done|].
    apply IH.
    - intros y s Hy. apply Hl. by right.
    - apply add_finite_not_nan; [done|].
      specialize (Hl x). destruct x as [sx|sx| |sx mx ex]; try done.
      exfalso. apply (Hl sx); [by left|done]. }
  by apply Hgen.
Qed.

(** The totals are never missing.  For a selection of fewer than eight
    holdings, where the additions are sequential, the total cost and the
    total market value are not NaN as long as no cell of the column is an
    infinity, even when cells are missing or the sum overflows. *)
Theorem totals_defined (df : list Row) :
  (length df < 8)%nat ->
  ((forall r s, r ∈ df -> cost r ≠ S754_infinity s) ->
   is_nan (total_cost df) = false)
  /\ ((forall r s, r ∈ df -> market r ≠ S754_infinity s) ->
      is_nan (total_market df) = false).
Proof.
  intros _. split; intros Hfin; apply nansum_not_nan; intros x s Hx;
    apply list_elem_of_fmap in Hx as (r & -> & Hr); by apply Hfin.
Qed.

Lemma totals_defined_witness :
  let df := enrich Sample.refs English [Sample.alpha; Sample.omega] in
  is_nan (total_cost df) = false /\ is_nan (total_market df) = false.
Proof.
  intros df.
  assert (Hlen : (length df < 8)%nat) by (simpl; lia).
  assert (Hin : forall r, r ∈ df ->
                  r = Sample.en Sample.alpha \/ r = Sample.en Sample.omega).
  { intros r Hr. apply elem_of_cons in Hr as [->|Hr]; [by left|].
    apply list_elem_of_singleton in Hr. by right. }
  split.
  - apply (proj1 (totals_defined df Hlen)). intros r s Hr.
    destruct (Hin r Hr) as [-> | ->]; discriminate.
  - apply (proj2 (totals_defined df Hlen)). intros r s Hr.
    destruct (Hin r Hr) as [-> | ->]; discriminate.
Defined.

(** ** Break-even holdings *)

(** A holding whose market value equals its finite nonzero cost has a
    profit percentage of exactly 0 (with the sign of the cost). *)
Theorem break_even_profit_pct (refs : Refs) (language : Language)
    (h : Holding) (s : bool) (m : positive) (e : Z) :
  Value_At_Cost h = S754_finite s m e ->
  Value_At_Market_Price h = S754_finite s m e ->
  Profit_pct (enrich_row refs language h) = S754_zero s.
Proof.
  intros Hc Hm.
  change (Profit_pct (enrich_row refs language h))
    with (profit_percent (Value_At_Market_Price h) (Value_At_Cost h)).
  unfold profit_percent. rewrite Hc, Hm.
  assert (Hsub : sub (S754_finite s m e) (S754_finite s m e) = zero).
  { unfold sub, SFsub. cbv zeta. by rewrite Z.sub_diag. }
  rewrite Hsub. by destruct s.
Qed.

Lemma break_even_profit_pct_witness :
  let h := Sample.row_of "INE001" "ALPHA" "M1" 1200 1200 in
  Profit_pct (enrich_row Sample.refs English h) = zero.
Proof.
  intros h.
  apply (break_even_profit_pct Sample.refs English h false
           5277655813324800%positive (-42)); reflexivity.
Defined.

(** ** Whole amounts in binary64 *)

Lemma digits2_pos_iter_xO (m k : positive) :
  digits2_pos (Pos.iter xO m k) = (digits2_pos m + k)%positive.
Proof.
  induction k as [|k IH] using Pos.peano_ind.
  - simpl. by rewrite Pos.add_1_r.
  - rewrite Pos.iter_succ. simpl. rewrite IH. by rewrite Pos.add_succ_r.
Qed.

Lemma Zpos_iter_xO (m k : positive) :
  Z.pos (Pos.iter xO m k) = Z.pos m * 2 ^ Z.pos k.
Proof.
  induction k as [|k IH] using Pos.peano_ind.
  - simpl. lia.
  - rewrite Pos.iter_succ, Pos2Z.inj_succ, Z.pow_succ_r by lia.
    rewrite Pos2Z.inj_xO, IH. lia.
Qed.

Lemma digits2_pos_bound (m : positive) :
  Z.pos m < 2 ^ 53 -> Z.pos (digits2_pos m) <= 53.
Proof.
  intros Hm.
  assert (Hsize : forall p, digits2_pos p = Pos.size p).
  { induction p as [p IH|p IH|]; simpl; by rewrite ?IH. }
  rewrite Hsize. pose proof (Pos.size_le m) as Hle.
  apply Pos2Z.pos_le_pos in Hle.
  rewrite Pos2Z.inj_pow, Pos2Z.inj_xO in Hle.
  destruct (Z.le_gt_cases (Z.pos (Pos.size m)) 53) as [|Hgt]; [done|].
  assert (2 ^ 54 <= 2 ^ Z.pos (Pos.size m))
    by (apply Z.pow_le_mono_r; lia).
  change ((2 * 1) ^ Z.pos (Pos.size m)) with (2 ^ Z.pos (Pos.size m)) in Hle.
  lia.
Qed.

(** A mantissa in canonical position is left as it is by the rounding. *)
Lemma binary_round_aux_canonical (s : bool) (m : positive) (e : Z) :
  fexp prec emax (Z.pos (digits2_pos m) + e) = e ->
  e <= emax - prec ->
  binary_round_aux prec emax s (Z.pos m) e loc_Exact = S754_finite s m e.
Proof.
  intros Hcanon He. unfold binary_round_aux, shr_fexp. simpl Zdigits2.
  rewrite Hcanon, Z.sub_diag. simpl. rewrite Hcanon, Z.sub_diag. simpl.
  apply Z.leb_le in He. by rewrite He.
Qed.

Lemma binary_round_small (s : bool) (m : positive) :
  Z.pos m < 2 ^ 53 ->
  binary_round prec emax s m 0 =
  S754_finite s (fst (aligned m)) (snd (aligned m)).
Proof.
  intros Hm. apply digits2_pos_bound in Hm.
  unfold binary_round.
  replace (fexp prec emax (Z.pos (digits2_pos m) + 0))
    with (Z.pos (digits2_pos m) - 53)
    by (unfold fexp, SpecFloat.emin, prec, emax; lia).
  fold (aligned m). destruct (aligned m) as [mz ez] eqn:Hal. simpl.
  unfold aligned, shl_align in Hal.
  destruct (Z.pos (digits2_pos m) - 53 - 0) as [|k|k] eqn:Hk; try lia.
  - injection Hal as <- <-. apply binary_round_aux_canonical.
    + unfold fexp, SpecFloat.emin, prec, emax. lia.
    + unfold prec, emax. lia.
  - injection Hal as <- <-. apply binary_round_aux_canonical.
    + rewrite digits2_pos_iter_xO.
      unfold fexp, SpecFloat.emin, prec, emax. lia.
    + unfold prec, emax. lia.
Qed.

Lemma aligned_value (m : positive) :
  Z.pos m < 2 ^ 53 ->
  snd (aligned m) <= 0
  /\ Z.pos (fst (aligned m)) = Z.pos m * 2 ^ (- snd (aligned m)).
Proof.
  intros Hm. apply digits2_pos_bound in Hm. unfold aligned, shl_align.
  destruct (Z.pos (digits2_pos m) - 53 - 0) as [|k|k] eqn:Hk; try lia;
    simpl.
  - split; lia.
  - split; [lia|]. rewrite Zpos_iter_xO. f_equal. f_equal. lia.
Qed.

Lemma to_Z_finite_aligned (s : bool) (m : positive) :
  Z.pos m < 2 ^ 53 ->
  to_Z (S754_finite s (fst (aligned m)) (snd (aligned m))) =
  Some (cond_Zopp s (Z.pos m)).
Proof.
  intros Hm. destruct (aligned_value m Hm) as [He Hv].
  unfold to_Z. do 2 f_equal.
  rewrite <- (Z.opp_involutive (snd (aligned m))).
  change (Z.shiftl ?a (- ?n)) with (Z.shiftr a n).
  rewrite Z.shiftr_div_pow2 by lia. rewrite Hv.
  apply Z.div_mul. apply Z.pow_nonzero; lia.
Qed.

Lemma rint_finite_aligned (s : bool) (m : positive) :
  Z.pos m < 2 ^ 53 ->
  rint (S754_finite s (fst (aligned m)) (snd (aligned m))) =
  S754_finite s (fst (aligned m)) (snd (aligned m)).
Proof.
  intros Hm. destruct (aligned_value m Hm) as [He Hv].
  unfold rint. destruct (0 <=? snd (aligned m)) eqn:Hle; [done|].
  apply Z.leb_gt in Hle.
  assert (Hd : Z.div_eucl (Z.pos (fst (aligned m))) (2 ^ (- snd (aligned m)))
               = (Z.pos m, 0)).
  { pose proof (Z.pow_pos_nonneg 2 (- snd (aligned m)) ltac:(lia) ltac:(lia)) as Hpos.
    assert (Hq : Z.pos (fst (aligned m)) / 2 ^ (- snd (aligned m)) = Z.pos m)
      by (rewrite Hv; apply Z.div_mul; lia).
    assert (Hr : Z.pos (fst (aligned m)) mod 2 ^ (- snd (aligned m)) = 0)
      by (rewrite Hv; apply Z.mod_mul; lia).
    unfold Z.div, Z.modulo in Hq, Hr.
    destruct (Z.div_eucl _ _) as [q r]. simpl in Hq, Hr. by subst. }
  rewrite Hd.
  assert (Hloc : new_location (2 ^ (- snd (aligned m))) 0 = loc_Exact).
  { unfold new_location. by destruct (Z.even _). }
  rewrite Hloc. simpl round_nearest_even.
  destruct s; simpl; by rewrite binary_round_small.
Qed.

Lemma of_Z_small (v : Z) :
  Z.abs v < 2 ^ 53 ->
  to_Z (of_Z v) = Some v /\ rint (of_Z v) = of_Z v.
Proof.
  intros Hv. destruct v as [|m|m]; [done| |].
  - unfold of_Z, binary_normalize. rewrite binary_round_small by lia.
    split; [by apply (to_Z_finite_aligned false)|by apply rint_finite_aligned].
  - unfold of_Z, binary_normalize. rewrite binary_round_small by lia.
    split; [by apply (to_Z_finite_aligned true)|by apply rint_finite_aligned].
Qed.

(** ** Formatting whole amounts *)

(** For every integer amount below 2^53 in absolute value the fallback of
    [format_inr] never fails and prints the amount itself: the conversion
    to [float] loses nothing, and the result is the rupee sign, a minus
    sign for a negative amount, and the grouped decimal digits. *)
Theorem fallback_prints_the_amount (value : Z) :
  Z.abs value < 2 ^ 53 ->
  format_inr no_locale value =
  Some (rupee +:+ (if value <? 0 then "-" else "")
              +:+ group3 (digits (Z.abs_N value))).
Proof.
  intros Hv. unfold format_inr, no_locale, format_comma_0f.
  by rewrite (proj1 (of_Z_small value Hv)).
Qed.

Lemma fallback_prints_the_amount_witness :
  format_inr no_locale (-1234567) = Some "₹-1,234,567".
Proof.
  exact (fallback_prints_the_amount (-1234567) eq_refl).
Defined.

Lemma py_round_whole (value : Z) :
  Z.abs value < 2 ^ 53 -> py_round (of_Z value) = Some value.
Proof.
  intros Hv. unfold py_round.
  destruct (of_Z_small value Hv) as [Hto Hrint]. by rewrite Hrint.
Qed.

(** A column of whole amounts below 2^53 is formatted cell by cell as
    [format_inr] of the amounts themselves, with or without the regional
    locale: rounding a whole amount changes nothing. *)
Theorem format_column_whole_amounts (locale_currency : Z -> option string)
    (amounts : list Z) :
  Forall (fun v => Z.abs v < 2 ^ 53) amounts ->
  format_column locale_currency (map of_Z amounts) =
  mapM (format_inr locale_currency) amounts.
Proof.
  unfold format_column. induction 1 as [|v vs Hv _ IH]; [done|].
  simpl. rewrite IH. unfold format_cell at 1. by rewrite py_round_whole.
Qed.

Lemma format_column_whole_amounts_witness :
  format_column no_locale (map of_Z [1200; 0; -45]) =
  Some ["₹1,200"; "₹0"; "₹-45"].
Proof.
  rewrite (format_column_whole_amounts no_locale [1200; 0; -45]).
  - reflexivity.
  - repeat constructor.
Defined.

(** A missing or infinite amount ends the formatting of its column with
    an exception, with or without the regional locale: [round] raises
    before [format_inr] is reached. *)
Theorem format_column_needs_finite (locale_currency : Z -> option string)
    (col : list float) (x : float) :
  x ∈ col -> is_finite x = false ->
  format_column locale_currency col = None.
Proof.
  intros Hin Hx. unfold format_column. apply mapM_None.
  apply Exists_exists. exists x. split; [done|].
  unfold format_cell, py_round. by destruct x.
Qed.

Lemma format_column_needs_finite_witness :
  format_column no_locale [of_Z 1200; nan; of_Z 3] = None.
Proof.
  apply (format_column_needs_finite no_locale _ nan).
  - apply list_elem_of_further, list_elem_of_here.
  - reflexivity.
Defined.

(** ** Thousands grouping *)

Lemma filter_rev {A : Type} (P : A -> Prop) `{!forall x, Decision (P x)}
    (l : list A) :
  filter P (rev l) = rev (filter P l).
Proof.
  induction l as [|x l IH]; [done|]. simpl rev.
  rewrite filter_app, IH, !filter_cons, filter_nil.
  destruct (decide (P x)); simpl; [done|]. by rewrite app_nil_r.
Qed.

Lemma group_rev_strip (ds : list ascii) (n : nat) :
  "," %char ∉ ds ->
  filter (fun c => c ≠ "," %char) (group_rev ds n) = ds.
Proof.
  revert n. induction ds as [|d ds IH]; intros n Hds; [done|].
  apply not_elem_of_cons in Hds as [Hd Hds]. simpl.
  destruct (n =? 3)%nat.
  - rewrite filter_cons, decide_False by (intros H; by apply H).
    rewrite filter_cons, decide_True by done. by rewrite IH.
  - rewrite filter_cons, decide_True by done. by rewrite IH.
Qed.

Lemma mod4_shift (j : nat) :
  ((j + 4) mod 4 = j mod 4)%nat.
Proof.
  replace (j + 4)%nat with (j + 1 * 4)%nat by lia.
  apply Nat.Div0.mod_add.
Qed.

Lemma group_rev_commas (ds : list ascii) (n j : nat) :
  (n <= 3)%nat -> "," %char ∉ ds ->
  group_rev ds n !! j = Some "," %char <->
  (j < length (group_rev ds n))%nat /\ ((j + n + 1) mod 4 = 0)%nat.
Proof.
  revert n j. induction ds as [|d ds IH]; intros n j Hn Hds.
  - simpl. rewrite lookup_nil. split; [done|]. intros [H _]. lia.
  - apply not_elem_of_cons in Hds as [Hd Hds].
    remember ((j + n + 1) mod 4)%nat as r eqn:Hr.
    cbn [group_rev]. destruct (n =? 3)%nat eqn:Hn3.
    + apply Nat.eqb_eq in Hn3. subst n.
      destruct j as [|[|j]]; cbn [lookup list_lookup length].
      * subst r. split; [intros _; split; [lia|done]|done].
      * subst r. split; [intros [= ->]; done|]. intros [_ H]. discriminate.
      * rewrite (IH 1%nat j) by (done || lia).
        replace (S (S j) + 3 + 1)%nat with (j + 1 + 1 + 4)%nat in Hr by lia.
        rewrite mod4_shift in Hr. subst r.
        split; intros [Hlt Hmod]; (split; [lia|done]).
    + apply Nat.eqb_neq in Hn3.
      destruct j as [|j]; cbn [lookup list_lookup length].
      * split; [intros [= ->]; done|]. intros [_ H]. subst r.
        assert (n = 0 \/ n = 1 \/ n = 2)%nat as [->|[->| ->]] by lia;
          discriminate.
      * rewrite (IH (S n) j) by (done || lia).
        replace (S j + n + 1)%nat with (j + S n + 1)%nat in Hr by lia.
        subst r. split; intros [Hlt Hmod]; (split; [lia|done]).
Qed.

Lemma uint_no_comma (d : Decimal.uint) :
  "," %char ∉ String.list_ascii_of_string (NilEmpty.string_of_uint d).
Proof.
  induction d; simpl; rewrite ?not_elem_of_cons;
    try (split; [discriminate|done]).
  apply not_elem_of_nil.
Qed.

Lemma digits_no_comma (n : N) :
  "," %char ∉ String.list_ascii_of_string (digits n).
Proof.
  unfold digits, NilZero.string_of_uint.
  destruct (N.to_uint n) eqn:Hd; try (rewrite <- Hd; apply uint_no_comma).
  simpl. rewrite not_elem_of_cons. split; [discriminate|apply not_elem_of_nil].
Qed.

Lemma string_length_of_list (l : list ascii) :
  String.length (String.string_of_list_ascii l) = length l.
Proof. induction l as [|c l IH]; simpl; by rewrite ?IH. Qed.

(** The grouping of the digits of a number only inserts commas: without
    the commas the digits are back, and counted from the right end,
    starting at 0, the commas stand exactly at the positions 3, 7, 11,
    ... of the grouped string. *)
Theorem group3_thousands (n : N) (j : nat) :
  strip_commas (group3 (digits n)) = digits n
  /\ (rev (String.list_ascii_of_string (group3 (digits n))) !! j
        = Some "," %char <->
      (j < String.length (group3 (digits n)))%nat /\ (j mod 4 = 3)%nat).
Proof.
  pose proof (digits_no_comma n) as Hno.
  assert (Hrev : "," %char ∉ rev (String.list_ascii_of_string (digits n))).
  { intros H. apply Hno. apply list_elem_of_In. apply in_rev.
    by apply list_elem_of_In. }
  unfold strip_commas, group3.
  rewrite string_length_of_list, !String.list_ascii_of_string_of_list_ascii.
  split.
  - rewrite filter_rev, group_rev_strip by done.
    by rewrite rev_involutive, String.string_of_list_ascii_of_string.
  - rewrite rev_involutive, length_rev, group_rev_commas by (done || lia).
    assert (Hmod : ((j + 0 + 1) mod 4 = 0 <-> j mod 4 = 3)%nat).
    { replace (j + 0 + 1)%nat with (S j) by lia.
      pose proof (Nat.div_mod_eq j 4) as Hj.
      pose proof (Nat.mod_upper_bound j 4 ltac:(lia)) as Hb.
      pose proof (Nat.div_mod_eq (S j) 4) as Hsj.
      pose proof (Nat.mod_upper_bound (S j) 4 ltac:(lia)) as Hsb.
      split; intros H; lia. }
    rewrite Hmod. done.
Qed.

(** ** A selection of a single holding *)

(** For a selection of one holding with a finite nonzero cost and a market
    value that is not missing, the per-holding profit percentage is the
    portfolio profit percentage rounded to two decimals. *)
Theorem single_holding_profit_pct (refs : Refs) (language : Language)
    (h : Holding) (s : bool) (m : positive) (e : Z) :
  Value_At_Cost h = S754_finite s m e ->
  is_nan (Value_At_Market_Price h) = false ->
  Profit_pct (enrich_row refs language h) =
  round2 (sum_profit_pct (summarize [enrich_row refs language h])).
Proof.
  intros Hc Hm.
  unfold summarize, profit_pct, total_cost, total_market, nansum, cost,
    market.
  cbn [sum_profit_pct map holding enrich_row Profit_pct fold_left].
  unfold profit_percent. rewrite Hc. cbn [fillna0 is_nan]. f_equal.
  destruct (Value_At_Market_Price h) as [sm|sm| |sm mm em]; try done.
  by destruct sm.
Qed.

Lemma single_holding_profit_pct_witness :
  Profit_pct (Sample.en Sample.beta) =
  round2 (sum_profit_pct (summarize [Sample.en Sample.beta])).
Proof.
  apply (single_holding_profit_pct Sample.refs English Sample.beta false
           6755399441055744%positive (-51)); reflexivity.
Defined.

Lemma iter_shr_1_zeros (m : positive) (k : positive) :
  iter_pos shr_1 k
    {| shr_m := Z.pos (Pos.iter xO m k); shr_r := false; shr_s := false |} =
  {| shr_m := Z.pos m; shr_r := false; shr_s := false |}.
Proof.
  revert m. induction k as [k IH|k IH|]; intros m; simpl.
  - rewrite IH. rewrite IH. done.
  - rewrite IH. rewrite IH. done.
  - done.
Qed.

Lemma one_finite : of_Z 1 = S754_finite false 4503599627370496 (-52).
Proof. reflexivity. Qed.

(** Multiplying a binary64 value by 1.0 gives the value back. *)
Lemma mul_one_r (s : bool) (m : positive) (e : Z) :
  valid_binary prec emax (S754_finite s m e) = true ->
  mul (S754_finite s m e) (of_Z 1) = S754_finite s m e.
Proof.
  intros Hvalid. simpl in Hvalid. unfold bounded, canonical_mantissa in Hvalid.
  apply andb_prop in Hvalid as [Hcanon Hbound].
  apply Z.eqb_eq in Hcanon.
  rewrite one_finite. unfold mul, SFmul. rewrite xorb_false_r.
  replace (m * 4503599627370496)%positive with (Pos.iter xO m 52)
    by (rewrite Pos.mul_comm; reflexivity).
  unfold binary_round_aux, shr_fexp. cbn [Zdigits2].
  rewrite digits2_pos_iter_xO.
  replace (Z.pos (digits2_pos m + 52) + (e + -52))
    with (Z.pos (digits2_pos m) + e) by lia.
  rewrite Hcanon.
  replace (e - (e + -52)) with 52 by lia.
  cbn [shr shr_record_of_loc]. rewrite iter_shr_1_zeros.
  cbn [shr_m loc_of_shr_record round_nearest_even Zdigits2 fst snd].
  replace (e + -52 + 52) with e by lia.
  rewrite Hcanon, Z.sub_diag. cbn [shr shr_record_of_loc shr_m].
  by rewrite Hbound.
Qed.

Lemma weight_one (r : Row) (s : bool) (m : positive) (e : Z) :
  market r = S754_finite s m e -> Weight [r] r = of_Z 1.
Proof.
  intros Hm. unfold Weight.
  rewrite (total_market_singleton r s m e Hm), Hm. apply div_self.
Qed.

(** The portfolio beta of a selection of one holding, with a finite
    nonzero market value and a beta that is a finite nonzero binary64
    number, is that holding's beta. *)
Theorem single_holding_beta (r : Row) (sm sb : bool) (mm mb : positive)
    (em eb : Z) :
  market r = S754_finite sm mm em ->
  Beta_1Y r = S754_finite sb mb eb ->
  valid_binary prec emax (Beta_1Y r) = true ->
  portfolio_beta [r] = Beta_1Y r.
Proof.
  intros Hm Hb Hvalid. unfold portfolio_beta, Weighted_Beta.
  pose proof (weight_one r sm mm em Hm) as Hw. cbn [map]. rewrite Hw.
  rewrite Hb in *. rewrite mul_one_r by done. reflexivity.
Qed.

Lemma single_holding_beta_witness :
  portfolio_beta [Sample.en Sample.alpha] = dec 12 1.
Proof.
  apply (single_holding_beta (Sample.en Sample.alpha) false false
           5277655813324800%positive 5404319552844595%positive
           (-42) (-52)); reflexivity.
Defined.

(** * The rounding error of the weights

    The weights are quotients rounded to binary64, and their sum is
    rounded at every addition.  This part bounds the error of one
    rounding, of an addition and of a division of non-negative numbers,
    and from these the distance between the sum of the weights and 1. *)

(** ** Rounding to nearest *)



































(** ** Division *)



(** ** Sums of non-negative numbers *)






















(** ** The weights of the filtered subset *)



